(** * dummy_app (LTIK.py): records, normalisation, ranking, statistics, CLI

    A shallow embedding of the Python module and the properties its
    specification states about it.

    Conventions of the embedding.
    - A Python [float] is an exact rational in canonical form ([Qc]), so
      Python's [==] on values is Leibniz equality.  Arithmetic is exact:
      rounding, infinite values and NaN are outside the model.
    - A Python [int] is a [Z].
    - An operation that can raise returns a [result]; the exceptions that the
      operators used by the module can raise are [ZeroDivisionError] (true
      division), [OverflowError] ([**] on floats, when the power is too large
      for a float) and [ValueError] ([math.sqrt] below zero).
    - [logger] calls are advisory and are not part of the model; the output of
      [main] is the sequence of its [print] calls. *)

From Stdlib Require Import ZArith QArith Qcanon List String Lia.
From Stdlib Require Import Sorting.Permutation Sorting.Sorted.
From stdpp Require Import gmap strings list pretty.
From stdpp Require Import sorting.

Import ListNotations.
Local Open Scope Qc_scope.

(** ** Exceptions *)

Inductive exn : Type :=
| ZeroDivisionError
| OverflowError
| ValueError.

Inductive result (A : Type) : Type :=
| Ok (a : A)
| Raise (e : exn).

Arguments Ok {A} a.
Arguments Raise {A} e.

Definition bind {A B : Type} (r : result A) (k : A -> result B) : result B :=
  match r with
  | Ok a => k a
  | Raise e => Raise e
  end.

Notation "'let*' x ':=' r 'in' k" := (bind r (fun x => k))
  (at level 10, x name, r at level 100, k at level 200).

(** A list comprehension whose body can raise: elements are evaluated from
    left to right and the first exception aborts the comprehension. *)
Fixpoint comprehension {A B : Type} (f : A -> result B) (l : list A)
  : result (list B) :=
  match l with
  | [] => Ok []
  | x :: xs =>
      let* y := f x in
      let* ys := comprehension f xs in
      Ok (y :: ys)
  end.

(** ** Python built-ins used by the module *)

(** [sum(iterable)]: the accumulator starts at 0 and the elements are added
    from left to right. *)
Definition py_sum (values : list Qc) : Qc := fold_left Qcplus values 0.

(** [a / b] on floats. *)
Definition py_truediv (a b : Qc) : result Qc :=
  if decide (b = 0) then Raise ZeroDivisionError else Ok (a / b).

(** The least magnitude that rounds to an infinite float: the largest
    finite float is [2^1024 - 2^971], and from half a unit in the last place
    above it, [2^1024 - 2^970], a result rounds to infinity. *)
Definition float_overflow_bound : Qc := Q2Qc (inject_Z (2 ^ 1024 - 2 ^ 970)).

Definition overflows (r : Qc) : Prop :=
  float_overflow_bound <= r \/ r <= - float_overflow_bound.

(** [x ** n] on a float, for a literal exponent [n]: unlike the other float
    operators, [**] raises when the power is too large for a float. *)
Definition py_pow (x : Qc) (n : nat) : result Qc :=
  if decide (overflows (x ^ n)) then Raise OverflowError else Ok (x ^ n).

(** [float(n)] for an [int], as done implicitly by [float / int]. *)
Definition float_of_int (n : Z) : Qc := Q2Qc (inject_Z n).

(** [len(l)]. *)
Definition len {A : Type} (l : list A) : Z := Z.of_nat (length l).

(** [l[:n]]: a negative bound counts from the end of the list. *)
Definition slice_to {A : Type} (l : list A) (n : Z) : list A :=
  if (0 <=? n)%Z then firstn (Z.to_nat n) l
  else firstn (Z.to_nat (len l + n)) l.

(** [sorted(l, key=key, reverse=True)]: a stable sort into descending key
    order.  Stability under [reverse=True] means that elements with equal
    keys keep the order they have in [l]; so an element is placed in front of
    the first element whose key is not greater than its own. *)
Section Sorted.
Context {A : Type} (key : A -> Qc).

Fixpoint insert_desc (x : A) (l : list A) : list A :=
  match l with
  | [] => [x]
  | y :: ys =>
      if decide (key x < key y) then y :: insert_desc x ys
      else x :: y :: ys
  end.

Fixpoint sorted_reverse (l : list A) : list A :=
  match l with
  | [] => []
  | x :: xs => insert_desc x (sorted_reverse xs)
  end.
End Sorted.

(** ** The dataclass *)

Record Item : Type := mkItem {
  id : Z;
  name : string;
  value : Qc
}.

(** The dictionary built by [Item.as_dict]: its keys are fixed, so it is a
    record of the three entries. *)
Record ItemDict : Type := mkItemDict {
  d_id : Z;
  d_name : string;
  d_value : Qc
}.

Definition as_dict (self : Item) : ItemDict :=
  {| d_id := id self; d_name := name self; d_value := value self |}.

(** ** Utility functions *)

Definition normalize_values (items : list Item) : result (list Item) :=
  let total := py_sum (map value items) in
  if decide (total = 0) then Ok items
  else comprehension
         (fun i => let* v := py_truediv (value i) total in
                   Ok (mkItem (id i) (name i) v))
         items.

Definition top_n_by_value (items : list Item) (n : Z) : list Item :=
  if (n <=? 0)%Z then []
  else
    let sorted_items := sorted_reverse value items in
    slice_to sorted_items n.

(** [math.sqrt]: the domain check is the library's own; the root it returns
    for a non-negative argument is the parameter [sqrt_fn]. *)
Definition math_sqrt (sqrt_fn : Qc -> Qc) (x : Qc) : result Qc :=
  if decide (x < 0) then Raise ValueError else Ok (sqrt_fn x).

(** The dictionary returned by [stats]; [None] entries are [None] here. *)
Record StatsDict : Type := mkStats {
  count : Z;
  sum : Qc;
  mean : option Qc;
  stddev : option Qc
}.

Definition stats (sqrt_fn : Qc -> Qc) (items : list Item) : result StatsDict :=
  let count := len items in
  if (count =? 0)%Z then
    Ok {| count := 0; sum := 0; mean := None; stddev := None |}
  else
    let values := map value items in
    let s := py_sum values in
    let* mean := py_truediv s (float_of_int count) in
    let* squares := comprehension (fun v => py_pow (v - mean) 2) values in
    let* variance := py_truediv (py_sum squares) (float_of_int count) in
    let* stddev := math_sqrt sqrt_fn variance in
    Ok {| count := count; sum := s; mean := Some mean; stddev := Some stddev |}.

(** ** CLI *)

(** Literal [n/d] as a value. *)
Definition lit (n : Z) (d : positive) : Qc := Q2Qc (n # d).

Definition build_example_items : list Item :=
  [ mkItem 1 "alpha" (lit 10 1);
    mkItem 2 "beta" (lit 5 1);
    mkItem 3 "gamma" (lit 0 1);
    mkItem 4 "delta" (lit 5 2);
    mkItem 5 "epsilon" (lit 15 2) ].

(** The namespace produced by [parse_args]. *)
Record Namespace : Type := mkArgs {
  top : Z;
  normalize : bool;
  json : bool
}.

(** [parse_args([])]: every option at its default. *)
Definition default_args : Namespace :=
  {| top := 3; normalize := false; json := false |}.

(** The dictionary [output] of [main]. *)
Record Output : Type := mkOutput {
  o_top : list ItemDict;
  o_stats : StatsDict
}.

(** [str(n)] for an [int]. *)
Definition str_int (n : Z) : string := pretty n.

Section Main.
(** Library functions the driver calls: [math.sqrt] on its domain, the
    text of a float inside an f-string, and [json.dumps(_, indent=2)]. *)
Variable sqrt_fn : Qc -> Qc.
Variable str_float : Qc -> string.
Variable json_dumps : Output -> string.

(** An optional float inside an f-string: [None] prints as [None]. *)
Definition str_opt_float (v : option Qc) : string :=
  match v with
  | Some x => str_float x
  | None => "None"
  end.

Definition item_line (it : Item) : string :=
  " - (" ++ str_int (id it) ++ ") " ++ name it ++ ": " ++ str_float (value it).

Definition stats_line (st : StatsDict) : string :=
  "Stats — count: " ++ str_int (count st) ++ ", sum: " ++ str_float (sum st)
    ++ ", mean: " ++ str_opt_float (mean st)
    ++ ", stddev: " ++ str_opt_float (stddev st).

(** [main]: the lines printed, in order, and the exit status. *)
Definition main (args : Namespace) : result (list string * Z) :=
  let items := build_example_items in
  let* items := if normalize args then normalize_values items else Ok items in
  let top := top_n_by_value items (top args) in
  let* st := stats sqrt_fn items in
  let output := {| o_top := map as_dict top; o_stats := st |} in
  let printed :=
    if json args then [json_dumps output]
    else ["Top items:"] ++ map item_line top ++ [""]
           ++ [stats_line (o_stats output)] in
  Ok (printed, 0%Z).
End Main.

(** ** Concrete library functions, for running the model

    [sqrt_exact] is the square root on squares of rationals, and
    [str_decimal] prints a value that has a finite decimal expansion the way
    Python prints the float: at least one digit after the point.  They stand
    for [math.sqrt] and the float formatter in the computed examples. *)

Definition sqrt_exact (x : Qc) : Qc :=
  Q2Qc (Z.sqrt (Qnum x) # Pos.sqrt (Qden x)).

Fixpoint frac_digits (fuel : nat) (r : Z) (d : Z) : string :=
  match fuel with
  | O => ""
  | S fuel' =>
      if (r =? 0)%Z then ""
      else str_int (10 * r / d) ++ frac_digits fuel' ((10 * r) mod d) d
  end.

Definition str_decimal (x : Qc) : string :=
  let n := Z.abs (Qnum x) in
  let d := Z.pos (Qden x) in
  let frac := frac_digits 17 (n mod d) d in
  (if (Qnum x <? 0)%Z then "-" else "") ++ str_int (n / d) ++ "."
    ++ (if decide (frac = "") then "0" else frac).

(** ** The specification's vocabulary *)

(** The sum of a sequence of numbers. *)
Definition total (values : list Qc) : Qc := fold_right Qcplus 0 values.

(** "total is the sum of all input values". *)
Definition total_value (items : list Item) : Qc := total (map value items).

(** A record with its value divided by [t], its id and name kept. *)
Definition scaled (t : Qc) (i : Item) : Item := mkItem (id i) (name i) (value i / t).

(** The mean of a sequence: its sum over its length. *)
Definition population_mean (values : list Qc) : Qc :=
  total values / float_of_int (len values).

(** Population variance: the mean of the squared deviations from the mean,
    the divisor being the number of values. *)
Definition population_variance (values : list Qc) : Qc :=
  total (map (fun v => (v - population_mean values) * (v - population_mean values))
             values)
    / float_of_int (len values).

(** No squared deviation from the mean is too large for a float. *)
Definition deviations_in_range (values : list Qc) : Prop :=
  Forall (fun v => ~ overflows ((v - population_mean values) ^ 2)) values.

(** Descending order of values, and "the same records with a given value in
    the same order", which is what stability of a sort preserves. *)
Definition desc {A : Type} (key : A -> Qc) (a b : A) : Prop := key b <= key a.

Definition with_key {A : Type} (key : A -> Qc) (v : Qc) (l : list A) : list A :=
  filter (fun a => key a = v) l.

Definition stable_wrt {A : Type} (key : A -> Qc) (s l : list A) : Prop :=
  forall v, with_key key v s = with_key key v l.

(** The working set of the driver: the sample data, normalised when the
    normalize flag is set. *)
Definition working_set (args : Namespace) : result (list Item) :=
  if normalize args then normalize_values build_example_items
  else Ok build_example_items.

(** The item line as the specification writes it. *)
Definition spec_item_line (str_float : Qc -> string) (it : Item) : string :=
  "- (" ++ str_int (id it) ++ ") " ++ name it ++ ": " ++ str_float (value it).

(** ** Lists and records as objects

    A Python list holds references, and a function receives the reference of
    the list it is called on.  This module runs [top_n_by_value] on a store
    of objects, so that what a call does to the objects it was given can be
    stated.  [None] stands for the type error of an operation applied to an
    object of the wrong kind. *)
Module Heap.

Definition ref : Type := positive.

Inductive object : Type :=
| ItemObj (it : Item)
| ListObj (elems : list ref).

Abbreviation heap := (gmap positive object).

(** A new object gets a reference that is not in use. *)
Definition alloc (h : heap) (o : object) : heap * ref :=
  let r := fresh (dom h) in (<[r := o]> h, r).

Definition get_list (h : heap) (r : ref) : option (list ref) :=
  match h !! r with
  | Some (ListObj elems) => Some elems
  | _ => None
  end.

Definition get_item (h : heap) (r : ref) : option Item :=
  match h !! r with
  | Some (ItemObj it) => Some it
  | _ => None
  end.

(** [lambda x: x.value]. *)
Definition key_value (h : heap) (x : ref) : option Qc := value <$> get_item h x.

(** [sorted(items, key=lambda x: x.value, reverse=True)]: the key of every
    element is computed, the references are sorted by their keys, and the
    outcome is a new list; the argument is only read. *)
Definition sorted_by_value (h : heap) (items : ref) : option (heap * ref) :=
  elems ← get_list h items;
  keys ← mapM (key_value h) elems;
  let decorated := zip keys elems in
  Some (alloc h (ListObj (map snd (sorted_reverse fst decorated)))).

(** [l[:n]]: a new list. *)
Definition slice (h : heap) (l : ref) (n : Z) : option (heap * ref) :=
  elems ← get_list h l;
  Some (alloc h (ListObj (slice_to elems n))).

Definition top_n_by_value (h : heap) (items : ref) (n : Z) : option (heap * ref) :=
  if (n <=? 0)%Z then Some (alloc h (ListObj []))
  else
    '(h1, sorted_items) ← sorted_by_value h items;
    slice h1 sorted_items n.

(** The records a list object holds, in order. *)
Definition items_of (h : heap) (l : ref) : option (list Item) :=
  elems ← get_list h l;
  mapM (get_item h) elems.

(** One store extends another when every object of the first is in the
    second, unchanged. *)
Definition preserved (h h' : heap) : Prop :=
  forall (r : ref) (o : object), h !! r = Some o -> h' !! r = Some o.

(** A store for the examples: the five example records at references 1 to
    5 and the list of them at reference 6. *)
Definition example_heap : heap :=
  <[6%positive := ListObj [1; 2; 3; 4; 5]%positive]>
    (list_to_map
       (zip [1; 2; 3; 4; 5]%positive (map ItemObj build_example_items))).

End Heap.

(** Values whose squares are too large for a float: [2^600] and its
    opposite, of mean 0; and [2^600] and 0, of mean [2^599]. *)
Definition huge : Qc := Q2Qc (inject_Z (2 ^ 600)).


Definition lopsided_items : list Item :=
  [ mkItem 1 "a" huge; mkItem 2 "b" (lit 0 1) ].

(** Two pairs of records with equal values, to observe the order of ties. *)
Definition tied_items : list Item :=
  [ mkItem 1 "a" (lit 1 1); mkItem 2 "b" (lit 2 1);
    mkItem 3 "c" (lit 1 1); mkItem 4 "d" (lit 2 1) ].



(** Two records of values -3 and -1: the sum is -4. *)
Definition negative_items : list Item :=
  [ mkItem 1 "a" (lit (-3) 1); mkItem 2 "b" (lit (-1) 1) ].

(** ** normalize_values on objects

    [normalize_values] returns the list it was given when the total is 0, and
    otherwise a new list of new records.  Type errors are [None] as in
    [Heap]; the exceptions of the arithmetic are those of [result]. *)
Module HeapNormalize.
Import Heap.

(** [Item(...)] for each record of a comprehension: one new object per
    record, in order. *)
Fixpoint alloc_items (h : heap) (its : list Item) : heap * list ref :=
  match its with
  | [] => (h, [])
  | it :: rest =>
      let (h1, r) := alloc h (ItemObj it) in
      let (h2, rs) := alloc_items h1 rest in
      (h2, r :: rs)
  end.

Definition normalize_values (h : heap) (items : ref)
  : option (result (heap * ref)) :=
  elems ← get_list h items;
  its ← mapM (get_item h) elems;
  let total := py_sum (map value its) in
  if decide (total = 0) then Some (Ok (h, items))
  else
    Some (let* new_items :=
            comprehension
              (fun i => let* v := py_truediv (value i) total in
                        Ok (mkItem (id i) (name i) v))
              its in
          let (h1, refs) := alloc_items h new_items in
          Ok (alloc h1 (ListObj refs))).

(** A store holding records of values 3 and 1 at references 1 and 2, a
    record of value 0 at 3, the list of the first two at 4 and the list of
    the third at 5. *)
Definition small_heap : heap :=
  <[5%positive := ListObj [3%positive]]>
    (<[4%positive := ListObj [1; 2]%positive]>
       (<[3%positive := ItemObj (mkItem 3 "z" (lit 0 1))]>
          (<[2%positive := ItemObj (mkItem 2 "b" (lit 1 1))]>
             (<[1%positive := ItemObj (mkItem 1 "a" (lit 3 1))]> ∅)))).

End HeapNormalize.

(** * Properties *)

(** ** Sums *)

Lemma fold_left_Qcplus_acc (l : list Qc) (a : Qc) :
  fold_left Qcplus l a = a + fold_left Qcplus l 0.
Proof.
  revert a. induction l as [|x l IH]; intros a; simpl.
  - ring.
  - rewrite (IH (a + x)), (IH (0 + x)). ring.
Qed.

Lemma py_sum_cons (x : Qc) (l : list Qc) : py_sum (x :: l) = x + py_sum l.
Proof.
  unfold py_sum. simpl. rewrite fold_left_Qcplus_acc. ring.
Qed.

(** Python's left-to-right [sum] is the sum of the sequence. *)
Lemma py_sum_total (l : list Qc) : py_sum l = total l.
Proof.
  induction l as [|x l IH]; [reflexivity|].
  rewrite py_sum_cons, IH. reflexivity.
Qed.


Lemma total_squares_nonneg (l : list Qc) (m : Qc) :
  0 <= total (map (fun v => (v - m) * (v - m)) l).
Proof.
  induction l as [|x l IH]; simpl.
  - apply Qcle_refl.
  - apply Qcplus_nonneg_nonneg; [|exact IH].
    destruct (Qclt_le_dec (x - m) 0) as [Hneg|Hpos].
    + replace ((x - m) * (x - m)) with ((- (x - m)) * (- (x - m))) by ring.
      assert (0 <= - (x - m)).
      { apply Qclt_le_weak in Hneg. apply Qcopp_le_compat in Hneg.
        replace (- 0) with 0 in Hneg by ring. exact Hneg. }
      apply Qcmult_nonneg_nonneg; assumption.
    + apply Qcmult_nonneg_nonneg; assumption.
Qed.

Lemma Qcpower_2 (x : Qc) : x ^ 2 = x * x.
Proof. simpl. ring. Qed.

(** ** Counts *)

Lemma float_of_int_pos (n : Z) : (0 < n)%Z -> 0 < float_of_int n.
Proof.
  intros Hn. unfold float_of_int, Qclt. simpl.
  rewrite !Qred_correct. unfold Qlt. simpl. lia.
Qed.

Lemma len_pos {A : Type} (l : list A) : l <> [] -> (0 < len l)%Z.
Proof. intros Hl. unfold len. destruct l; [congruence | simpl; lia]. Qed.

Lemma map_nonempty {A B : Type} (f : A -> B) (l : list A) : l <> [] -> map f l <> [].
Proof. intros Hl. destruct l; [congruence | discriminate]. Qed.

Lemma float_of_int_len_nonzero {A : Type} (l : list A) :
  l <> [] -> float_of_int (len l) <> 0.
Proof.
  intros Hl Heq.
  pose proof (float_of_int_pos (len l) (len_pos l Hl)) as Hpos.
  rewrite Heq in Hpos. exact (Qclt_not_eq _ _ Hpos eq_refl).
Qed.

Lemma len_map {A B : Type} (f : A -> B) (l : list A) : len (map f l) = len l.
Proof. unfold len. rewrite length_map. reflexivity. Qed.

(** ** Comprehensions and division *)

Lemma py_truediv_ok (a b : Qc) : b <> 0 -> py_truediv a b = Ok (a / b).
Proof.
  intros Hb. unfold py_truediv. destruct (decide (b = 0)); [contradiction | reflexivity].
Qed.

Lemma comprehension_ok {A B : Type} (f : A -> result B) (g : A -> B) (l : list A) :
  (forall x, f x = Ok (g x)) -> comprehension f l = Ok (map g l).
Proof.
  intros Hf. induction l as [|x l IH]; simpl; [reflexivity|].
  rewrite Hf, IH. reflexivity.
Qed.

Lemma normalize_values_nonzero (items : list Item) :
  total_value items <> 0 ->
  normalize_values items = Ok (map (scaled (total_value items)) items).
Proof.
  intros Ht. unfold normalize_values, total_value in *.
  rewrite py_sum_total.
  destruct (decide (total (map value items) = 0)) as [H0|_]; [contradiction|].
  apply comprehension_ok. intros i.
  rewrite py_truediv_ok by assumption. reflexivity.
Qed.

Lemma normalize_values_zero (items : list Item) :
  total_value items = 0 -> normalize_values items = Ok items.
Proof.
  intros Ht. unfold normalize_values, total_value in *.
  rewrite py_sum_total.
  destruct (decide (total (map value items) = 0)); [reflexivity | contradiction].
Qed.

(** ** normalize_values *)

(** C1. [normalize_values] never raises and returns a sequence of the length
    of its input.  With [t] the sum of all input values: when [t = 0] the
    result is the input itself; otherwise the element at each position keeps
    the id and the name of the input element at that position and has its
    value divided by [t]. *)
Theorem normalize_values_spec (items : list Item) :
  exists out,
    normalize_values items = Ok out /\
    length out = length items /\
    (total_value items = 0 -> out = items) /\
    (total_value items <> 0 ->
     forall (k : nat) (it : Item),
       items !! k = Some it ->
       exists it',
         out !! k = Some it' /\
         id it' = id it /\ name it' = name it /\
         value it' = value it / total_value items).
Proof.
  destruct (decide (total_value items = 0)) as [H0|Hn0].
  - exists items. rewrite normalize_values_zero by assumption.
    repeat split; try reflexivity. intros Hn0. contradiction.
  - exists (map (scaled (total_value items)) items).
    rewrite normalize_values_nonzero by assumption.
    split; [reflexivity|]. split; [apply length_map|].
    split; [intros H0; contradiction|].
    intros _ k it Hk. exists (scaled (total_value items) it).
    rewrite list_lookup_fmap, Hk. repeat split; reflexivity.
Qed.



(** ** sorted(_, key, reverse=True) *)

Section SortedFacts.
Context {A : Type} (key : A -> Qc).

Lemma insert_desc_perm (x : A) (l : list A) :
  Permutation (insert_desc key x l) (x :: l).
Proof.
  induction l as [|y ys IH]; simpl; [reflexivity|].
  destruct (decide (key x < key y)); [|reflexivity].
  rewrite IH. apply perm_swap.
Qed.

Lemma sorted_reverse_perm (l : list A) : Permutation (sorted_reverse key l) l.
Proof.
  induction l as [|x xs IH]; simpl; [reflexivity|].
  rewrite insert_desc_perm, IH. reflexivity.
Qed.

Lemma sorted_reverse_length (l : list A) :
  length (sorted_reverse key l) = length l.
Proof. apply Permutation_length, sorted_reverse_perm. Qed.

Lemma insert_desc_sorted (x : A) (l : list A) :
  StronglySorted (desc key) l -> StronglySorted (desc key) (insert_desc key x l).
Proof.
  induction 1 as [|y ys Hys IH Hy]; simpl.
  - constructor; constructor.
  - destruct (decide (key x < key y)) as [Hlt|Hge].
    + constructor; [exact IH|].
      rewrite insert_desc_perm.
      constructor; [|exact Hy].
      unfold desc. apply Qclt_le_weak, Hlt.
    + apply Qcnot_lt_le in Hge.
      constructor; [constructor; assumption|].
      constructor; [exact Hge|].
      eapply Forall_impl; [exact Hy|].
      intros z Hz. unfold desc in *. eapply Qcle_trans; eassumption.
Qed.

Lemma sorted_reverse_sorted (l : list A) :
  StronglySorted (desc key) (sorted_reverse key l).
Proof.
  induction l as [|x xs IH]; simpl; [constructor|].
  apply insert_desc_sorted, IH.
Qed.

(** Insertion never moves an element across another one with the same
    key. *)
Lemma insert_desc_with_key (v : Qc) (x : A) (l : list A) :
  with_key key v (insert_desc key x l) = with_key key v (x :: l).
Proof.
  unfold with_key. induction l as [|y ys IH]; simpl; [reflexivity|].
  destruct (decide (key x < key y)) as [Hlt|Hge]; [|reflexivity].
  rewrite (filter_cons _ y), IH, !filter_cons.
  destruct (decide (key y = v)) as [Hy|Hy];
    destruct (decide (key x = v)) as [Hx|Hx]; try reflexivity.
  exfalso. rewrite Hx, Hy in Hlt. exact (Qclt_not_eq _ _ Hlt eq_refl).
Qed.

Lemma sorted_reverse_stable (l : list A) : stable_wrt key (sorted_reverse key l) l.
Proof.
  intros v. induction l as [|x xs IH]; simpl; [reflexivity|].
  rewrite insert_desc_with_key. unfold with_key in *.
  rewrite !filter_cons, IH. reflexivity.
Qed.

(** Descending order and stability leave no choice: two sorted lists with
    the same records of each value, in the same order, are the same list.
    So the list returned by any stable descending sort is the one of
    [sorted_reverse]. *)
Lemma sorted_stable_unique (s1 s2 : list A) :
  StronglySorted (desc key) s1 -> StronglySorted (desc key) s2 ->
  stable_wrt key s1 s2 -> s1 = s2.
Proof.
  intros H1. revert s2. induction H1 as [|a t Ht IH Ha]; intros s2 H2 Hst.
  - destruct s2 as [|b t']; [reflexivity|].
    specialize (Hst (key b)). unfold with_key in Hst.
    rewrite filter_cons_True in Hst by reflexivity. discriminate.
  - destruct H2 as [|b t' Ht' Hb].
    { specialize (Hst (key a)). unfold with_key in Hst.
      rewrite filter_cons_True in Hst by reflexivity. discriminate. }
    assert (Hkey : key a = key b).
    { destruct (decide (key a = key b)) as [|Hne]; [assumption|].
      apply Qcle_antisym.
      - pose proof (Hst (key a)) as Hv. unfold with_key in Hv.
        rewrite filter_cons_True in Hv by reflexivity.
        rewrite (filter_cons_False _ b) in Hv by congruence.
        assert (Hin : a ∈ filter (fun x => key x = key a) t')
          by (rewrite <- Hv; left).
        apply list_elem_of_filter in Hin as [_ Hin].
        rewrite Forall_forall in Hb. apply Hb, Hin.
      - pose proof (Hst (key b)) as Hv. unfold with_key in Hv.
        rewrite (filter_cons_True _ b) in Hv by reflexivity.
        rewrite (filter_cons_False _ a) in Hv by congruence.
        assert (Hin : b ∈ filter (fun x => key x = key b) t)
          by (rewrite Hv; left).
        apply list_elem_of_filter in Hin as [_ Hin].
        rewrite Forall_forall in Ha. apply Ha, Hin. }
    assert (Hab : a = b).
    { pose proof (Hst (key a)) as Hv. unfold with_key in Hv.
      rewrite filter_cons_True in Hv by reflexivity.
      rewrite (filter_cons_True _ b) in Hv by congruence.
      congruence. }
    subst b. f_equal. apply IH; [assumption|].
    intros v. pose proof (Hst v) as Hv. unfold with_key in *.
    rewrite !filter_cons in Hv.
    destruct (decide (key a = v)); congruence.
Qed.
End SortedFacts.

(** ** top_n_by_value *)

Lemma slice_to_pos {A : Type} (l : list A) (n : Z) :
  (0 < n)%Z -> slice_to l n = firstn (Z.to_nat n) l.
Proof.
  intros Hn. unfold slice_to.
  destruct (0 <=? n)%Z eqn:E; [reflexivity|]. apply Z.leb_gt in E. lia.
Qed.

Lemma top_n_by_value_pos (items : list Item) (n : Z) :
  (0 < n)%Z ->
  top_n_by_value items n = firstn (Z.to_nat n) (sorted_reverse value items).
Proof.
  intros Hn. unfold top_n_by_value.
  destruct (n <=? 0)%Z eqn:E; [apply Z.leb_le in E; lia|].
  apply slice_to_pos, Hn.
Qed.

(** The result is empty or has at most [n] records. *)
Lemma top_n_by_value_length (items : list Item) (n : Z) :
  (len (top_n_by_value items n) <= n \/ top_n_by_value items n = [])%Z.
Proof.
  destruct (n <=? 0)%Z eqn:E.
  - right. unfold top_n_by_value. rewrite E. reflexivity.
  - left. apply Z.leb_gt in E. rewrite top_n_by_value_pos by lia. unfold len.
    rewrite length_firstn. lia.
Qed.

(** C2. For [n > 0], [top_n_by_value items n] is the first [n] records of
    the stable descending sort [s] of [items]: [s] holds the records of
    [items], its values never increase, and the records of any one value are
    in the order they have in [items].  The result has [min n (length items)]
    records, and it is all of [s] once [n] reaches the length of [items].
    No other list is sorted and stable in this sense, so [s] does not depend
    on the sorting algorithm. *)
Theorem top_n_by_value_spec (items : list Item) (n : Z) :
  (0 < n)%Z ->
  exists s,
    Permutation s items /\
    StronglySorted (desc value) s /\
    stable_wrt value s items /\
    (forall s', StronglySorted (desc value) s' -> stable_wrt value s' items -> s' = s) /\
    top_n_by_value items n = firstn (Z.to_nat n) s /\
    length (top_n_by_value items n) = Nat.min (Z.to_nat n) (length items) /\
    ((len items <= n)%Z -> top_n_by_value items n = s).
Proof.
  intros Hn. exists (sorted_reverse value items).
  rewrite top_n_by_value_pos by assumption.
  split; [apply sorted_reverse_perm|].
  split; [apply sorted_reverse_sorted|].
  split; [apply sorted_reverse_stable|].
  split.
  { intros s' Hsorted Hstable.
    apply (sorted_stable_unique value); [assumption | apply sorted_reverse_sorted |].
    intros v. rewrite Hstable. symmetry. apply sorted_reverse_stable. }
  split; [reflexivity|].
  split.
  - rewrite length_firstn, sorted_reverse_length. reflexivity.
  - intros Hlen. apply firstn_all2.
    rewrite sorted_reverse_length. unfold len in Hlen. lia.
Qed.

(** Ties keep the input order. *)
Example top_n_by_value_ties :
  map name (top_n_by_value tied_items 3) = ["b"; "d"; "a"].
Proof. vm_compute. reflexivity. Qed.

Lemma top_n_by_value_spec_witness :
  exists s,
    Permutation s tied_items /\
    StronglySorted (desc value) s /\
    stable_wrt value s tied_items /\
    (forall s', StronglySorted (desc value) s' -> stable_wrt value s' tied_items -> s' = s) /\
    top_n_by_value tied_items 3 = firstn (Z.to_nat 3) s /\
    length (top_n_by_value tied_items 3) = Nat.min (Z.to_nat 3) (length tied_items) /\
    ((len tied_items <= 3)%Z -> top_n_by_value tied_items 3 = s).
Proof. apply (top_n_by_value_spec tied_items 3). lia. Defined.

(** C5. For [n <= 0], [top_n_by_value] returns the empty list (and, being a
    total function, raises nothing). *)
Theorem top_n_by_value_nonpos (items : list Item) (n : Z) :
  (n <= 0)%Z -> top_n_by_value items n = [].
Proof.
  intros Hn. unfold top_n_by_value.
  destruct (n <=? 0)%Z eqn:E; [reflexivity|]. apply Z.leb_gt in E. lia.
Qed.

Lemma top_n_by_value_nonpos_witness :
  top_n_by_value build_example_items (-2) = [] /\
  top_n_by_value build_example_items 0 = [].
Proof.
  split.
  - apply (top_n_by_value_nonpos build_example_items (-2)). lia.
  - apply (top_n_by_value_nonpos build_example_items 0). lia.
Defined.

(** ** build_example_items *)

(** C8. The example data are five records with ids 1 to 5, names alpha to
    epsilon and values 10, 5, 0, 5/2, 15/2; sorted by descending value they
    are alpha, epsilon, beta, delta, gamma, and the top three are alpha (10),
    epsilon (15/2), beta (5) in that order. *)
Theorem build_example_items_top3 :
  length build_example_items = 5%nat /\
  map id build_example_items = [1; 2; 3; 4; 5]%Z /\
  map name build_example_items = ["alpha"; "beta"; "gamma"; "delta"; "epsilon"] /\
  map (fun it => this (value it)) build_example_items
    = [10 # 1; 5 # 1; 0 # 1; 5 # 2; 15 # 2]%Q /\
  map name (sorted_reverse value build_example_items)
    = ["alpha"; "epsilon"; "beta"; "delta"; "gamma"] /\
  top_n_by_value build_example_items (top default_args)
    = [ mkItem 1 "alpha" (lit 10 1); mkItem 5 "epsilon" (lit 15 2);
        mkItem 2 "beta" (lit 5 1) ].
Proof. repeat split; vm_compute; reflexivity. Qed.

(** ** stats *)

Lemma Qcdiv_nonneg (a b : Qc) : 0 <= a -> 0 < b -> 0 <= a / b.
Proof.
  intros Ha Hb. unfold Qcdiv.
  apply Qcmult_nonneg_nonneg; [exact Ha|].
  apply Qclt_le_weak, Qcinv_pos, Hb.
Qed.

Lemma math_sqrt_ok (sqrt_fn : Qc -> Qc) (x : Qc) :
  0 <= x -> math_sqrt sqrt_fn x = Ok (sqrt_fn x).
Proof.
  intros Hx. unfold math_sqrt.
  destruct (decide (x < 0)) as [Hlt|_]; [|reflexivity].
  exfalso. exact (Qcle_not_lt _ _ Hx Hlt).
Qed.

(** The generator of squared deviations: it yields every square when none
    is too large, and otherwise stops with [OverflowError]. *)
Lemma squares_in_range (m : Qc) (values : list Qc) :
  Forall (fun v => ~ overflows ((v - m) ^ 2)) values ->
  comprehension (fun v => py_pow (v - m) 2) values
  = Ok (map (fun v => (v - m) ^ 2) values).
Proof.
  induction 1 as [|v values Hv H IH]; [reflexivity|].
  cbn [comprehension map]. unfold py_pow at 1.
  destruct (decide (overflows ((v - m) ^ 2))); [contradiction|].
  cbn [bind]. rewrite IH. reflexivity.
Qed.

Lemma squares_overflow (m : Qc) (values : list Qc) :
  ~ Forall (fun v => ~ overflows ((v - m) ^ 2)) values ->
  comprehension (fun v => py_pow (v - m) 2) values = Raise OverflowError.
Proof.
  induction values as [|v values IH]; intros Hnot.
  - exfalso. apply Hnot. constructor.
  - cbn [comprehension]. unfold py_pow at 1.
    destruct (decide (overflows ((v - m) ^ 2))) as [Hv|Hv]; [reflexivity|].
    cbn [bind]. rewrite IH; [reflexivity|].
    intros H. apply Hnot. constructor; assumption.
Qed.

Lemma squared_deviations (values : list Qc) (m : Qc) :
  py_sum (map (fun v => (v - m) ^ 2) values)
  = total (map (fun v => (v - m) * (v - m)) values).
Proof.
  rewrite py_sum_total. f_equal. apply map_ext. intros v. apply Qcpower_2.
Qed.

Lemma population_variance_nonneg (values : list Qc) :
  values <> [] -> 0 <= population_variance values.
Proof.
  intros Hv. unfold population_variance.
  apply Qcdiv_nonneg; [apply total_squares_nonneg|].
  apply float_of_int_pos, len_pos, Hv.
Qed.

(** The steps of [stats] on a non-empty list that cannot raise: both
    divisions have a non-zero divisor and the square root a non-negative
    argument. *)
Lemma stats_steps (sqrt_fn : Qc -> Qc) (items : list Item) :
  items <> [] ->
  let values := map value items in
  let n := float_of_int (len items) in
  py_truediv (py_sum values) n = Ok (population_mean values) /\
  py_truediv (py_sum (map (fun v => (v - population_mean values) ^ 2) values)) n
    = Ok (population_variance values) /\
  math_sqrt sqrt_fn (population_variance values)
    = Ok (sqrt_fn (population_variance values)).
Proof.
  intros Hne values n.
  assert (Hn : n <> 0) by (apply float_of_int_len_nonzero, Hne).
  assert (Hvalues : values <> []) by (apply map_nonempty, Hne).
  split; [|split].
  - rewrite py_truediv_ok by exact Hn. rewrite py_sum_total.
    unfold population_mean. subst values n. rewrite len_map. reflexivity.
  - rewrite py_truediv_ok by exact Hn. rewrite squared_deviations.
    unfold population_variance. subst values n. rewrite len_map. reflexivity.
  - apply math_sqrt_ok, population_variance_nonneg, Hvalues.
Qed.

Lemma stats_nonempty (sqrt_fn : Qc -> Qc) (items : list Item) :
  items <> [] ->
  deviations_in_range (map value items) ->
  stats sqrt_fn items
  = Ok {| count := len items;
          sum := total_value items;
          mean := Some (population_mean (map value items));
          stddev := Some (sqrt_fn (population_variance (map value items))) |}.
Proof.
  intros Hne Hr. destruct (stats_steps sqrt_fn items Hne) as (Hm & Hv & Hs).
  unfold stats. cbv zeta.
  destruct (len items =? 0)%Z eqn:E.
  { apply Z.eqb_eq in E. pose proof (len_pos items Hne). lia. }
  rewrite Hm. cbn [bind]. rewrite (squares_in_range _ _ Hr). cbn [bind].
  rewrite Hv. cbn [bind]. rewrite Hs. cbn [bind].
  rewrite py_sum_total. reflexivity.
Qed.

Lemma stats_overflow (sqrt_fn : Qc -> Qc) (items : list Item) :
  items <> [] ->
  ~ deviations_in_range (map value items) ->
  stats sqrt_fn items = Raise OverflowError.
Proof.
  intros Hne Hr. destruct (stats_steps sqrt_fn items Hne) as (Hm & _ & _).
  unfold stats. cbv zeta.
  destruct (len items =? 0)%Z eqn:E.
  { apply Z.eqb_eq in E. pose proof (len_pos items Hne). lia. }
  rewrite Hm. cbn [bind]. rewrite (squares_overflow _ _ Hr). reflexivity.
Qed.

(** Whenever [stats] returns, the count is the number of records. *)
Lemma stats_ok_count (sqrt_fn : Qc -> Qc) (items : list Item) (st : StatsDict) :
  stats sqrt_fn items = Ok st -> count st = len items.
Proof.
  destruct items as [|i items]; [intros [= <-]; reflexivity|].
  destruct (decide (deviations_in_range (map value (i :: items)))) as [Hr|Hr].
  - rewrite stats_nonempty by (discriminate || exact Hr). intros [= <-]. reflexivity.
  - rewrite stats_overflow by (discriminate || exact Hr). discriminate.
Qed.

(** Closed instances of [deviations_in_range], by evaluation. *)
Ltac in_range :=
  repeat constructor; intros [H|H]; vm_compute in H; apply H; reflexivity.


(** The divisor is the count: the values 1 and 3 have variance 1 (the
    sample variance would be 2), and standard deviation 1. *)
Example stats_population_divisor :
  stats sqrt_exact [mkItem 1 "a" (lit 1 1); mkItem 2 "b" (lit 3 1)]
  = Ok {| count := 2; sum := lit 4 1; mean := Some (lit 2 1); stddev := Some (lit 1 1) |}.
Proof.
  rewrite stats_nonempty by (discriminate || in_range).
  do 2 f_equal; try reflexivity.
  all: f_equal; apply Qc_is_canon; vm_compute; reflexivity.
Qed.


(** C10 (as the code has it). [stats] returns or raises [OverflowError],
    and nothing else.  On a non-empty list the count is positive and the mean
    is computed; if every square is computed, the value bound to [variance] is
    a sum of squares over a positive count: it is not negative, so [math.sqrt]
    does not raise. *)
Theorem stats_sqrt_domain (sqrt_fn : Qc -> Qc) (items : list Item) :
  (stats sqrt_fn items = Raise OverflowError \/ exists st, stats sqrt_fn items = Ok st) /\
  (items <> [] ->
   exists mean,
     py_truediv (py_sum (map value items)) (float_of_int (len items)) = Ok mean /\
     0 < float_of_int (len items) /\
     forall squares,
       comprehension (fun v => py_pow (v - mean) 2) (map value items) = Ok squares ->
       exists variance,
         py_truediv (py_sum squares) (float_of_int (len items)) = Ok variance /\
         0 <= py_sum squares /\
         0 <= variance /\
         math_sqrt sqrt_fn variance = Ok (sqrt_fn variance)).
Proof.
  split.
  - destruct items as [|i items]; [right; eexists; reflexivity|].
    destruct (decide (deviations_in_range (map value (i :: items)))) as [Hr|Hr].
    + right. eexists. apply stats_nonempty; [discriminate | exact Hr].
    + left. apply stats_overflow; [discriminate | exact Hr].
  - intros Hne. destruct (stats_steps sqrt_fn items Hne) as (Hm & Hv & Hs).
    exists (population_mean (map value items)).
    split; [exact Hm|].
    split; [apply float_of_int_pos, len_pos, Hne|].
    intros squares Hsq.
    destruct (decide (deviations_in_range (map value items))) as [Hr|Hr];
      [|rewrite (squares_overflow _ _ Hr) in Hsq; discriminate].
    rewrite (squares_in_range _ _ Hr) in Hsq.
    assert (Heq : squares = map (fun v => (v - population_mean (map value items)) ^ 2)
                                (map value items)) by congruence.
    subst squares.
    exists (population_variance (map value items)).
    split; [exact Hv|].
    split; [rewrite squared_deviations; apply total_squares_nonneg|].
    split; [|exact Hs].
    apply population_variance_nonneg, map_nonempty, Hne.
Qed.

(** C10 (as the specification has it) fails: [stats] is not total.  On the
    two records of values [2^600] and 0 the mean is [2^599], the first squared
    deviation is [2^1198], and [stats] raises [OverflowError]. *)
Lemma stats_not_total :
  stats sqrt_exact lopsided_items = Raise OverflowError /\
  forall st, stats sqrt_exact lopsided_items <> Ok st.
Proof.
  assert (H : stats sqrt_exact lopsided_items = Raise OverflowError)
    by (vm_compute; reflexivity).
  split; [exact H|]. intros st. rewrite H. discriminate.
Qed.

(** ** main *)

Section MainFacts.
Variable sqrt_fn : Qc -> Qc.
Variable str_float : Qc -> string.
Variable json_dumps : Output -> string.

Lemma total_value_example : total_value build_example_items = lit 25 1.
Proof. apply Qc_is_canon. vm_compute. reflexivity. Qed.

(** The list handed to [top_n_by_value] and to [stats]: the example data,
    each value divided by 25 under [--normalize]. *)
Lemma working_set_ok (args : Namespace) :
  working_set args
  = Ok (if normalize args then map (scaled (lit 25 1)) build_example_items
        else build_example_items).
Proof.
  unfold working_set. destruct (normalize args); [|reflexivity].
  rewrite normalize_values_nonzero; rewrite total_value_example; [reflexivity|].
  intros H. apply (f_equal this) in H. vm_compute in H. discriminate.
Qed.

Lemma working_set_length (args : Namespace) (items : list Item) :
  working_set args = Ok items -> length items = 5%nat.
Proof.
  rewrite working_set_ok. intros [= <-].
  destruct (normalize args); reflexivity.
Qed.

Lemma working_set_in_range (args : Namespace) (items : list Item) :
  working_set args = Ok items -> deviations_in_range (map value items).
Proof.
  rewrite working_set_ok. intros [= <-].
  destruct (normalize args); in_range.
Qed.

Lemma main_ok (args : Namespace) (items : list Item) (st : StatsDict) :
  working_set args = Ok items ->
  stats sqrt_fn items = Ok st ->
  main sqrt_fn str_float json_dumps args
  = Ok (if json args
        then [json_dumps {| o_top := map as_dict (top_n_by_value items (top args));
                            o_stats := st |}]
        else ["Top items:"] ++ map (item_line str_float) (top_n_by_value items (top args))
               ++ [""] ++ [stats_line str_float st],
        0%Z).
Proof.
  intros Hw Hs. unfold main. cbv zeta. fold (working_set args).
  rewrite Hw. cbn [bind]. rewrite Hs. cbn [bind]. reflexivity.
Qed.

(** C4. For every command line, [main] computes the statistics it emits
    with [stats] on the whole working set (the five example records,
    normalised under [--normalize]): their count is 5 whatever [--top] is,
    they are the [stats] entry of the JSON output and the last line of the
    text output, and whenever fewer than five records are displayed they
    differ from the statistics of the displayed records. *)
Theorem main_stats_over_working_set (args : Namespace) :
  exists items st lines,
    working_set args = Ok items /\
    items = (if normalize args
             then map (scaled (total_value build_example_items)) build_example_items
             else build_example_items) /\
    length items = 5%nat /\
    stats sqrt_fn items = Ok st /\
    count st = 5%Z /\
    main sqrt_fn str_float json_dumps args = Ok (lines, 0%Z) /\
    (json args = true ->
     lines = [json_dumps {| o_top := map as_dict (top_n_by_value items (top args));
                            o_stats := st |}]) /\
    (json args = false -> last lines = Some (stats_line str_float st)) /\
    ((top args < 5)%Z ->
     forall st', stats sqrt_fn (top_n_by_value items (top args)) = Ok st' ->
                 count st' <> count st).
Proof.
  destruct (working_set args) as [items|e] eqn:Hw; [|rewrite working_set_ok in Hw; discriminate].
  pose proof (working_set_length args items Hw) as Hlen.
  assert (Hne : items <> []) by (destruct items; [discriminate | congruence]).
  pose proof (stats_nonempty sqrt_fn items Hne (working_set_in_range args items Hw)) as Hs.
  eexists items, _, _.
  split; [reflexivity|].
  split; [rewrite working_set_ok, <- total_value_example in Hw; congruence|].
  split; [exact Hlen|]. split; [exact Hs|].
  split; [simpl; unfold len; rewrite Hlen; reflexivity|].
  split; [apply (main_ok args items _ Hw Hs)|].
  split; [intros ->; reflexivity|].
  split.
  - intros ->. rewrite !app_assoc. apply last_snoc.
  - intros Htop st' Hs'. apply stats_ok_count in Hs'. rewrite Hs'.
    cbn [count].
    destruct (top_n_by_value_length items (top args)) as [Hle|Hnil];
      [|rewrite Hnil]; unfold len in *; rewrite Hlen; simpl; lia.
Qed.

(** C7 (as the code has it). In text mode [main] prints the header
    [Top items:], then for each displayed record the line made of one space
    and [- (<id>) <name>: <value>], then an empty line, then the line
    [Stats — count: <c>, sum: <s>, mean: <m>, stddev: <sd>].  An absent mean
    or standard deviation is printed as [None]; in the driver the count is
    always 5 and both are present. *)
Theorem main_text_output (args : Namespace) :
  json args = false ->
  exists items st m sd,
    working_set args = Ok items /\
    stats sqrt_fn items = Ok st /\
    main sqrt_fn str_float json_dumps args
    = Ok ("Top items:"
            :: map (fun it => (" - (" ++ str_int (id it) ++ ") " ++ name it ++ ": "
                                 ++ str_float (value it))%string)
                   (top_n_by_value items (top args))
            ++ [ ""%string;
                 ("Stats — count: " ++ str_int (count st)
                    ++ ", sum: " ++ str_float (sum st)
                    ++ ", mean: " ++ str_float m
                    ++ ", stddev: " ++ str_float sd)%string ],
          0%Z) /\
    count st = 5%Z /\ mean st = Some m /\ stddev st = Some sd /\
    stats_line str_float {| count := 0; sum := 0; mean := None; stddev := None |}
    = ("Stats — count: 0, sum: " ++ str_float 0 ++ ", mean: None, stddev: None")%string.
Proof.
  intros Hj.
  destruct (working_set args) as [items|e] eqn:Hw; [|rewrite working_set_ok in Hw; discriminate].
  pose proof (working_set_length args items Hw) as Hlen.
  assert (Hne : items <> []) by (destruct items; [discriminate | congruence]).
  pose proof (stats_nonempty sqrt_fn items Hne (working_set_in_range args items Hw)) as Hs.
  eexists items, _, _, _.
  split; [reflexivity|]. split; [exact Hs|].
  split; [rewrite (main_ok args items _ Hw Hs), Hj; reflexivity|].
  split; [simpl; unfold len; rewrite Hlen; reflexivity|].
  repeat split.
Qed.
End MainFacts.

Lemma main_text_output_witness :
  exists lines,
    main sqrt_exact str_decimal (fun _ => ""%string) default_args = Ok (lines, 0%Z) /\
    take 5 lines
    = [ "Top items:"; " - (1) alpha: 10.0"; " - (5) epsilon: 7.5";
        " - (2) beta: 5.0"; "" ]%string.
Proof.
  destruct (main_text_output sqrt_exact str_decimal (fun _ => ""%string)
              default_args eq_refl)
    as (items & st & m & sd & Hw & _ & Hmain & _).
  rewrite working_set_ok in Hw. injection Hw as <-.
  eexists. split; [exact Hmain|]. vm_compute. reflexivity.
Defined.

(** C7 (as the specification has it) fails: the item lines start with a
    space.  With the default command line the second line printed is
    [ - (1) alpha: 10.0], not [- (1) alpha: 10.0]. *)
Lemma main_item_line_indented :
  exists lines,
    main sqrt_exact str_decimal (fun _ => ""%string) default_args = Ok (lines, 0%Z) /\
    lines !! 1%nat = Some " - (1) alpha: 10.0"%string /\
    spec_item_line str_decimal (mkItem 1 "alpha" (lit 10 1)) = "- (1) alpha: 10.0"%string /\
    lines !! 1%nat <> Some (spec_item_line str_decimal (mkItem 1 "alpha" (lit 10 1))).
Proof.
  eexists. split; [vm_compute; reflexivity|].
  split; [reflexivity|]. split; [vm_compute; reflexivity|].
  vm_compute. discriminate.
Qed.

(** ** top_n_by_value on objects *)

Section SortedRelated.
Context {A B : Type} (R : A -> B -> Prop) (ka : A -> Qc) (kb : B -> Qc).

(** Related elements with equal keys. *)
Let R' (a : A) (b : B) : Prop := R a b /\ ka a = kb b.

Lemma insert_desc_related (a : A) (b : B) (la : list A) (lb : list B) :
  R' a b -> Forall2 R' la lb ->
  Forall2 R' (insert_desc ka a la) (insert_desc kb b lb).
Proof.
  intros Hab H. induction H as [|a' b' la lb Hab' H IH]; simpl.
  - constructor; [exact Hab | constructor].
  - destruct Hab as [Hr Hk], Hab' as [Hr' Hk']. rewrite Hk, Hk'.
    destruct (decide (kb b < kb b')).
    + constructor; [split; assumption | exact IH].
    + constructor; [split; assumption|].
      constructor; [split; assumption | exact H].
Qed.

(** Sorting two lists of pairwise related elements with equal keys gives
    lists of pairwise related elements. *)
Lemma sorted_reverse_related (la : list A) (lb : list B) :
  Forall2 R' la lb -> Forall2 R' (sorted_reverse ka la) (sorted_reverse kb lb).
Proof.
  induction 1 as [|a b la lb Hab H IH]; simpl; [constructor|].
  apply insert_desc_related; assumption.
Qed.
End SortedRelated.

Section HeapFacts.
Import Heap.

Lemma alloc_fresh (h : heap) (o : object) : h !! (alloc h o).2 = None.
Proof. unfold alloc. simpl. apply not_elem_of_dom, is_fresh. Qed.

Lemma alloc_lookup_new (h : heap) (o : object) :
  (alloc h o).1 !! (alloc h o).2 = Some o.
Proof. unfold alloc. simpl. apply lookup_insert_eq. Qed.

(** Allocation leaves every existing object as it is. *)
Lemma alloc_lookup_old (h : heap) (o o' : object) (r : ref) :
  h !! r = Some o' -> (alloc h o).1 !! r = Some o'.
Proof.
  intros Hr. unfold alloc. simpl. rewrite lookup_insert_ne; [exact Hr|].
  intros Heq. pose proof (alloc_fresh h o) as Hf. unfold alloc in Hf. simpl in Hf.
  rewrite Heq in Hf. congruence.
Qed.

Lemma get_item_lookup (h : heap) (r : ref) (it : Item) :
  get_item h r = Some it <-> h !! r = Some (ItemObj it).
Proof.
  unfold get_item. destruct (h !! r) as [[it'|elems]|]; split; congruence.
Qed.

Lemma get_list_lookup (h : heap) (r : ref) (elems : list ref) :
  get_list h r = Some elems <-> h !! r = Some (ListObj elems).
Proof.
  unfold get_list. destruct (h !! r) as [[it'|elems']|]; split; congruence.
Qed.

Lemma preserved_alloc (h : heap) (o : object) : preserved h (alloc h o).1.
Proof. intros r o' Hr. apply alloc_lookup_old, Hr. Qed.

Lemma preserved_trans (h1 h2 h3 : heap) :
  preserved h1 h2 -> preserved h2 h3 -> preserved h1 h3.
Proof. intros H12 H23 r o Hr. apply H23, H12, Hr. Qed.

Lemma items_of_preserved (h h' : heap) (l : ref) (its : list Item) :
  preserved h h' -> items_of h l = Some its -> items_of h' l = Some its.
Proof.
  intros Hp. unfold items_of.
  destruct (get_list h l) as [elems|] eqn:Hl; [|discriminate]. simpl.
  apply get_list_lookup in Hl. apply Hp in Hl. apply get_list_lookup in Hl.
  rewrite Hl. simpl.
  rewrite !mapM_Some. intros H. eapply Forall2_impl; [exact H|].
  intros x it Hx. apply get_item_lookup. apply Hp. apply get_item_lookup. exact Hx.
Qed.

Lemma items_of_alloc (h : heap) (elems : list ref) (its : list Item) :
  Forall2 (fun x it => get_item h x = Some it) elems its ->
  items_of (alloc h (ListObj elems)).1 (alloc h (ListObj elems)).2 = Some its.
Proof.
  intros H. unfold items_of.
  pose proof (alloc_lookup_new h (ListObj elems)) as Hn.
  apply get_list_lookup in Hn. rewrite Hn. simpl.
  apply mapM_Some. eapply Forall2_impl; [exact H|].
  intros x it Hx.
  apply get_item_lookup. apply (preserved_alloc h (ListObj elems)).
  apply get_item_lookup. exact Hx.
Qed.

Lemma keys_of_items (h : heap) (elems : list ref) (its : list Item) :
  Forall2 (fun x it => get_item h x = Some it) elems its ->
  mapM (key_value h) elems = Some (map value its).
Proof.
  intros H. apply mapM_Some. apply Forall2_fmap_r.
  eapply Forall2_impl; [exact H|].
  intros x it Hx. unfold key_value. simpl. rewrite Hx. reflexivity.
Qed.

Lemma decorated_related (h : heap) (elems : list ref) (its : list Item) :
  Forall2 (fun x it => get_item h x = Some it) elems its ->
  Forall2 (fun d it => get_item h d.2 = Some it /\ d.1 = value it)
          (zip (map value its) elems) its.
Proof.
  induction 1 as [|x it elems its Hx H IH]; simpl; constructor; auto.
Qed.

(** On a list of records, sorting the references by the records' values
    gives the references of the sorted records. *)
Lemma sorted_by_value_ok (h : heap) (items : ref) (its : list Item) :
  items_of h items = Some its ->
  exists h' r,
    sorted_by_value h items = Some (h', r) /\
    preserved h h' /\ h !! r = None /\
    items_of h' r = Some (sorted_reverse value its).
Proof.
  unfold items_of, sorted_by_value.
  destruct (get_list h items) as [elems|] eqn:Hl; [|discriminate]. simpl.
  intros H. apply mapM_Some in H. rewrite (keys_of_items h elems its H). simpl.
  set (l := map snd (sorted_reverse fst (zip (map value its) elems))).
  exists (alloc h (ListObj l)).1, (alloc h (ListObj l)).2.
  split; [reflexivity|].
  split; [apply preserved_alloc|]. split; [apply alloc_fresh|].
  apply items_of_alloc. apply Forall2_fmap_l.
  eapply Forall2_impl.
  - apply (sorted_reverse_related (fun d it => get_item h d.2 = Some it) fst value).
    apply decorated_related, H.
  - intros d it [Hd _]. exact Hd.
Qed.

Lemma slice_to_length_eq {A B : Type} (l : list A) (l' : list B) (n : Z) :
  length l = length l' ->
  exists k, slice_to l n = take k l /\ slice_to l' n = take k l'.
Proof.
  intros Hlen. unfold slice_to, len. rewrite Hlen.
  destruct (0 <=? n)%Z; eexists; split; reflexivity.
Qed.

Lemma slice_ok (h : heap) (l : ref) (n : Z) (its : list Item) :
  items_of h l = Some its ->
  exists h' r,
    slice h l n = Some (h', r) /\
    preserved h h' /\ h !! r = None /\
    items_of h' r = Some (slice_to its n).
Proof.
  unfold items_of, slice.
  destruct (get_list h l) as [elems|] eqn:Hl; [|discriminate]. simpl.
  intros H. apply mapM_Some in H.
  exists (alloc h (ListObj (slice_to elems n))).1, (alloc h (ListObj (slice_to elems n))).2.
  split; [reflexivity|].
  split; [apply preserved_alloc|]. split; [apply alloc_fresh|].
  apply items_of_alloc.
  destruct (slice_to_length_eq elems its n (Forall2_length _ _ _ H)) as (k & -> & ->).
  apply Forall2_take, H.
Qed.
End HeapFacts.

(** C9. A call of [top_n_by_value] on a list of records, for any [n],
    returns and leaves every object of the store as it was: the input list
    holds the same references in the same order and its records are
    unchanged.  The result is a list that did not exist before, and it holds
    the records that [top_n_by_value] computes from the records of the
    input. *)
Theorem top_n_by_value_keeps_input
  (h : Heap.heap) (items : Heap.ref) (its : list Item) (n : Z) :
  Heap.items_of h items = Some its ->
  exists h' r,
    Heap.top_n_by_value h items n = Some (h', r) /\
    Heap.preserved h h' /\
    Heap.get_list h' items = Heap.get_list h items /\
    Heap.items_of h' items = Some its /\
    h !! r = None /\
    Heap.items_of h' r = Some (top_n_by_value its n).
Proof.
  intros Hits.
  assert (Hframe : forall h' r res,
             Heap.preserved h h' -> h !! r = None ->
             Heap.items_of h' r = Some res ->
             Heap.preserved h h' /\
             Heap.get_list h' items = Heap.get_list h items /\
             Heap.items_of h' items = Some its /\
             h !! r = None /\
             Heap.items_of h' r = Some res).
  { intros h' r res Hp Hr Hres. split; [exact Hp|].
    split; [|split; [eapply items_of_preserved; eassumption | split; assumption]].
    unfold Heap.items_of in Hits.
    destruct (Heap.get_list h items) as [elems|] eqn:Hl; [|discriminate].
    apply get_list_lookup. apply Hp. apply get_list_lookup. exact Hl. }
  unfold Heap.top_n_by_value, top_n_by_value.
  destruct (n <=? 0)%Z.
  - exists (Heap.alloc h (Heap.ListObj [])).1, (Heap.alloc h (Heap.ListObj [])).2.
    split; [reflexivity|]. apply Hframe.
    + apply preserved_alloc.
    + apply alloc_fresh.
    + apply items_of_alloc. constructor.
  - destruct (sorted_by_value_ok h items its Hits) as (h1 & r1 & Hs & Hp1 & _ & Hits1).
    destruct (slice_ok h1 r1 n _ Hits1) as (h2 & r2 & Hsl & Hp2 & Hr2 & Hits2).
    exists h2, r2. rewrite Hs. simpl. split; [exact Hsl|].
    apply Hframe.
    + eapply preserved_trans; eassumption.
    + destruct (h !! r2) as [o|] eqn:Ho; [|reflexivity].
      apply Hp1 in Ho. congruence.
    + exact Hits2.
Qed.

Lemma top_n_by_value_keeps_input_witness :
  exists h' r,
    Heap.top_n_by_value Heap.example_heap 6%positive 3 = Some (h', r) /\
    Heap.preserved Heap.example_heap h' /\
    Heap.get_list h' 6%positive = Heap.get_list Heap.example_heap 6%positive /\
    Heap.items_of h' 6%positive = Some build_example_items /\
    Heap.example_heap !! r = None /\
    Heap.items_of h' r = Some (top_n_by_value build_example_items 3).
Proof.
  apply (top_n_by_value_keeps_input Heap.example_heap 6%positive build_example_items 3).
  vm_compute. reflexivity.
Defined.

(** The call on the example store: the new list holds the references of
    alpha, epsilon and beta, and the input list is as before. *)
Example top_n_by_value_on_example_heap :
  exists h' r,
    Heap.top_n_by_value Heap.example_heap 6%positive 3 = Some (h', r) /\
    Heap.get_list h' r = Some [1; 5; 2]%positive /\
    Heap.get_list h' 6%positive = Some [1; 2; 3; 4; 5]%positive.
Proof. eexists _, _. repeat split; vm_compute; reflexivity. Qed.

(** * Further properties of the module *)

(** ** normalize_values: composition, order and range *)

Lemma total_value_scaled (t : Qc) (items : list Item) :
  total_value (map (scaled t) items) = total_value items / t.
Proof.
  unfold total_value. induction items as [|i items IH]; simpl.
  - unfold Qcdiv. ring.
  - rewrite IH. unfold Qcdiv. ring.
Qed.

Lemma scaled_one (i : Item) : scaled 1 i = i.
Proof.
  destruct i as [n s v]. unfold scaled. simpl. f_equal. field.
  intros H. apply (f_equal this) in H. discriminate.
Qed.

Lemma Qc_one_nonzero : (1 : Qc) <> 0.
Proof. intros H. apply (f_equal this) in H. discriminate. Qed.

(** X1. Normalising twice is normalising once: the result of
    [normalize_values] is returned unchanged by a second call. *)
Theorem normalize_values_idempotent (items : list Item) :
  exists out, normalize_values items = Ok out /\ normalize_values out = Ok out.
Proof.
  destruct (decide (total_value items = 0)) as [H0|Hn0].
  - exists items. rewrite normalize_values_zero by assumption. split; reflexivity.
  - exists (map (scaled (total_value items)) items).
    split; [apply normalize_values_nonzero, Hn0|].
    assert (Hone : total_value (map (scaled (total_value items)) items) = 1).
    { rewrite total_value_scaled. field. exact Hn0. }
    rewrite normalize_values_nonzero; rewrite Hone; [|exact Qc_one_nonzero].
    f_equal. rewrite <- (map_id (map (scaled (total_value items)) items)) at 2.
    apply map_ext. intros i. apply scaled_one.
Qed.

Section SortedMonotone.
Context {A B : Type} (f : A -> B) (ka : A -> Qc) (kb : B -> Qc).
Hypothesis keys_agree : forall a a', ka a < ka a' <-> kb (f a) < kb (f a').

Lemma insert_desc_map (x : A) (l : list A) :
  insert_desc kb (f x) (map f l) = map f (insert_desc ka x l).
Proof.
  induction l as [|y ys IH]; simpl; [reflexivity|].
  destruct (decide (ka x < ka y)) as [Hlt|Hge];
    destruct (decide (kb (f x) < kb (f y))) as [Hlt'|Hge'].
  - rewrite IH. reflexivity.
  - exfalso. apply Hge', keys_agree, Hlt.
  - exfalso. apply Hge, keys_agree, Hlt'.
  - reflexivity.
Qed.

(** A transformation of the elements that keeps the strict order of the
    keys commutes with the sort. *)
Lemma sorted_reverse_map (l : list A) :
  sorted_reverse kb (map f l) = map f (sorted_reverse ka l).
Proof.
  induction l as [|x xs IH]; simpl; [reflexivity|].
  rewrite IH. apply insert_desc_map.
Qed.
End SortedMonotone.

Lemma slice_to_map {A B : Type} (f : A -> B) (l : list A) (n : Z) :
  slice_to (map f l) n = map f (slice_to l n).
Proof.
  unfold slice_to. rewrite len_map.
  destruct (0 <=? n)%Z; apply firstn_map.
Qed.

Lemma scaled_lt_pos (t : Qc) (a b : Item) :
  0 < t -> value a < value b <-> value (scaled t a) < value (scaled t b).
Proof.
  intros Ht. unfold scaled, Qcdiv. simpl.
  apply Qcmult_lt_mono_pos_r, Qcinv_pos, Ht.
Qed.

Lemma top_n_by_value_scaled (t : Qc) (items : list Item) (n : Z) :
  0 < t ->
  top_n_by_value (map (scaled t) items) n = map (scaled t) (top_n_by_value items n).
Proof.
  intros Ht. unfold top_n_by_value.
  destruct (n <=? 0)%Z; [reflexivity|].
  rewrite (sorted_reverse_map (scaled t) value value) by (intros a b; apply scaled_lt_pos, Ht).
  apply slice_to_map.
Qed.

(** X2. In exact arithmetic, when the values have a positive sum,
    normalising does not change the ranking: the top [n] of the normalised
    records are the normalised top [n] records, the same ids and names in the
    same order.  (Division of floats can round two different values to the
    same quotient; that is outside the model.) *)
Theorem normalize_values_keeps_ranking (items : list Item) (n : Z) :
  0 < total_value items ->
  exists out,
    normalize_values items = Ok out /\
    top_n_by_value out n
    = map (scaled (total_value items)) (top_n_by_value items n) /\
    map id (top_n_by_value out n) = map id (top_n_by_value items n) /\
    map name (top_n_by_value out n) = map name (top_n_by_value items n).
Proof.
  intros Ht. exists (map (scaled (total_value items)) items).
  split.
  { apply normalize_values_nonzero. intros H0. rewrite H0 in Ht.
    exact (Qclt_not_eq _ _ Ht eq_refl). }
  rewrite top_n_by_value_scaled by exact Ht.
  split; [reflexivity|]. rewrite !map_map. split; reflexivity.
Qed.

Lemma normalize_values_keeps_ranking_witness :
  exists out,
    normalize_values build_example_items = Ok out /\
    top_n_by_value out 2
    = map (scaled (total_value build_example_items)) (top_n_by_value build_example_items 2) /\
    map id (top_n_by_value out 2) = map id (top_n_by_value build_example_items 2) /\
    map name (top_n_by_value out 2) = map name (top_n_by_value build_example_items 2).
Proof.
  apply (normalize_values_keeps_ranking build_example_items 2).
  vm_compute. reflexivity.
Defined.

Lemma Qcopp_pos (t : Qc) : t < 0 -> 0 < - t.
Proof.
  intros Ht. apply Qclt_minus_iff in Ht.
  replace (0 + - t) with (- t) in Ht by ring. exact Ht.
Qed.

Lemma scaled_lt_neg (t : Qc) (a b : Item) :
  t < 0 -> value a < value b -> value (scaled t b) < value (scaled t a).
Proof.
  intros Ht Hab. unfold scaled. simpl.
  assert (Hnz : t <> 0) by (intros H0; rewrite H0 in Ht; exact (Qclt_not_eq _ _ Ht eq_refl)).
  pose proof (Qcinv_pos _ (Qcopp_pos t Ht)) as Hinv.
  pose proof (Qcmult_lt_compat_r _ _ _ Hinv Hab) as H.
  apply Qclt_minus_iff. apply Qclt_minus_iff in H.
  replace (value a / t + - (value b / t))
    with (value b * / - t + - (value a * / - t)); [exact H|].
  field. split; [exact Hnz|].
  intros H0. apply Hnz. replace t with (- - t) by ring. rewrite H0. ring.
Qed.

(** X3. In exact arithmetic, when the values have a negative sum,
    normalising reverses their order: of two records, the one with the smaller
    value gets the larger normalised value.  (Division of floats can round two
    different values to the same quotient; that is outside the model.) *)
Theorem normalize_values_negative_total_reverses (items : list Item) :
  total_value items < 0 ->
  exists out,
    normalize_values items = Ok out /\
    forall (j k : nat) (a b : Item),
      items !! j = Some a -> items !! k = Some b -> value a < value b ->
      exists a' b',
        out !! j = Some a' /\ out !! k = Some b' /\
        id a' = id a /\ id b' = id b /\ value b' < value a'.
Proof.
  intros Ht. exists (map (scaled (total_value items)) items).
  split.
  { apply normalize_values_nonzero. intros H0. rewrite H0 in Ht.
    exact (Qclt_not_eq _ _ Ht eq_refl). }
  intros j k a b Hj Hk Hab.
  exists (scaled (total_value items) a), (scaled (total_value items) b).
  rewrite !list_lookup_fmap, Hj, Hk.
  repeat split; try reflexivity. apply scaled_lt_neg; assumption.
Qed.

Lemma normalize_values_negative_total_reverses_witness :
  exists out,
    normalize_values negative_items = Ok out /\
    forall (j k : nat) (a b : Item),
      negative_items !! j = Some a -> negative_items !! k = Some b ->
      value a < value b ->
      exists a' b',
        out !! j = Some a' /\ out !! k = Some b' /\
        id a' = id a /\ id b' = id b /\ value b' < value a'.
Proof.
  apply (normalize_values_negative_total_reverses negative_items).
  vm_compute. reflexivity.
Defined.

(** On these records the first place goes to "b" before normalising and to
    "a" after. *)
Example normalize_values_negative_total_top1 :
  map name (top_n_by_value negative_items 1) = ["b"] /\
  (let* out := normalize_values negative_items in
   Ok (map name (top_n_by_value out 1))) = Ok ["a"].
Proof. split; vm_compute; reflexivity. Qed.

Lemma total_value_nonneg (items : list Item) :
  Forall (fun it => 0 <= value it) items -> 0 <= total_value items.
Proof.
  unfold total_value. induction 1 as [|i items Hi H IH]; simpl.
  - apply Qcle_refl.
  - apply Qcplus_nonneg_nonneg; assumption.
Qed.

Lemma value_le_total_value (items : list Item) :
  Forall (fun it => 0 <= value it) items ->
  Forall (fun it => value it <= total_value items) items.
Proof.
  induction 1 as [|i items Hi H IH]; constructor.
  - unfold total_value. simpl. fold (total_value items).
    pose proof (total_value_nonneg items H) as Ht.
    pose proof (Qcplus_le_compat _ _ _ _ (Qcle_refl (value i)) Ht) as Hle.
    replace (value i + 0) with (value i) in Hle by ring. exact Hle.
  - eapply Forall_impl; [exact IH|]. intros it Hit.
    unfold total_value. simpl. fold (total_value items).
    pose proof (Qcplus_le_compat _ _ _ _ Hi Hit) as Hle.
    replace (0 + value it) with (value it) in Hle by ring. exact Hle.
Qed.

Lemma Qcdiv_le_one (v t : Qc) : 0 < t -> v <= t -> v / t <= 1.
Proof.
  intros Ht Hv. unfold Qcdiv.
  pose proof (Qcmult_le_compat_r _ _ _ Hv (Qclt_le_weak _ _ (Qcinv_pos _ Ht))) as H.
  replace (t * / t) with 1 in H; [exact H|].
  field. intros H0. rewrite H0 in Ht. exact (Qclt_not_eq _ _ Ht eq_refl).
Qed.

(** X4. When no value is negative and their sum is not zero, every
    normalised value lies between 0 and 1. *)
Theorem normalize_values_unit_range (items : list Item) :
  Forall (fun it => 0 <= value it) items ->
  total_value items <> 0 ->
  exists out,
    normalize_values items = Ok out /\
    Forall (fun it => 0 <= value it /\ value it <= 1) out.
Proof.
  intros Hnn Hn0. exists (map (scaled (total_value items)) items).
  split; [apply normalize_values_nonzero, Hn0|].
  assert (Hpos : 0 < total_value items).
  { destruct (Qcle_lt_or_eq _ _ (total_value_nonneg items Hnn)) as [Hlt|Heq];
      [exact Hlt | congruence]. }
  apply Forall_fmap. pose proof (value_le_total_value items Hnn) as Hle.
  rewrite Forall_forall in Hnn, Hle. apply Forall_forall. intros it Hin.
  simpl. split.
  - apply Qcdiv_nonneg; [apply Hnn, Hin | exact Hpos].
  - apply Qcdiv_le_one; [exact Hpos | apply Hle, Hin].
Qed.

Lemma normalize_values_unit_range_witness :
  exists out,
    normalize_values build_example_items = Ok out /\
    Forall (fun it => 0 <= value it /\ value it <= 1) out.
Proof.
  apply (normalize_values_unit_range build_example_items).
  - repeat constructor; vm_compute; discriminate.
  - intros H. apply (f_equal this) in H. vm_compute in H. discriminate.
Defined.

(** ** top_n_by_value: what is kept and what is left out *)

Lemma sorted_reverse_of_sorted {A : Type} (key : A -> Qc) (l : list A) :
  StronglySorted (desc key) l -> sorted_reverse key l = l.
Proof.
  intros Hl. apply (sorted_stable_unique key); [apply sorted_reverse_sorted | exact Hl |].
  apply sorted_reverse_stable.
Qed.

Lemma take_sorted {A : Type} (key : A -> Qc) (k : nat) (l : list A) :
  StronglySorted (desc key) l -> StronglySorted (desc key) (take k l).
Proof.
  intros Hl. rewrite <- (take_drop k l) in Hl.
  exact (StronglySorted_app_1_l _ _ _ Hl).
Qed.

(** X5. The records of the input split into the result of
    [top_n_by_value] and the records left out, and no record left out has a
    greater value than a record of the result. *)
Theorem top_n_by_value_dominates (items : list Item) (n : Z) :
  exists rest,
    Permutation items (top_n_by_value items n ++ rest) /\
    forall x y, x ∈ top_n_by_value items n -> y ∈ rest -> value y <= value x.
Proof.
  destruct (n <=? 0)%Z eqn:E.
  - exists items. unfold top_n_by_value. rewrite E. split; [reflexivity|].
    intros x y Hx. inversion Hx.
  - apply Z.leb_gt in E. rewrite top_n_by_value_pos by exact E.
    exists (drop (Z.to_nat n) (sorted_reverse value items)).
    rewrite take_drop. split; [symmetry; apply sorted_reverse_perm|].
    intros x y Hx Hy.
    pose proof (sorted_reverse_sorted value items) as Hs.
    rewrite <- (take_drop (Z.to_nat n)) in Hs.
    exact (StronglySorted_app_1_elem_of _ _ _ _ _ Hs Hx Hy).
Qed.

(** X6. Taking the top [m] of the top [n] gives the top [m], for
    [m <= n]; in particular the top [n] of a top [n] is itself. *)
Theorem top_n_by_value_nested (items : list Item) (m n : Z) :
  (m <= n)%Z ->
  top_n_by_value (top_n_by_value items n) m = top_n_by_value items m.
Proof.
  intros Hmn. destruct (m <=? 0)%Z eqn:E.
  - unfold top_n_by_value at 1 3. rewrite E. reflexivity.
  - apply Z.leb_gt in E.
    rewrite (top_n_by_value_pos items n) by lia.
    rewrite !(top_n_by_value_pos _ m) by lia.
    rewrite sorted_reverse_of_sorted by (apply take_sorted, sorted_reverse_sorted).
    rewrite take_take. f_equal. lia.
Qed.

Lemma top_n_by_value_nested_witness :
  top_n_by_value (top_n_by_value build_example_items 4) 2
  = top_n_by_value build_example_items 2.
Proof. apply (top_n_by_value_nested build_example_items 2 4). lia. Defined.

(** X7. On a list already in descending order of value,
    [top_n_by_value] with [n > 0] returns its first [n] records as they
    are. *)
Theorem top_n_by_value_of_sorted (items : list Item) (n : Z) :
  StronglySorted (desc value) items ->
  (0 < n)%Z ->
  top_n_by_value items n = take (Z.to_nat n) items.
Proof.
  intros Hs Hn. rewrite top_n_by_value_pos by exact Hn.
  rewrite sorted_reverse_of_sorted by exact Hs. reflexivity.
Qed.

Lemma top_n_by_value_of_sorted_witness :
  top_n_by_value (sorted_reverse value tied_items) 3
  = take (Z.to_nat 3) (sorted_reverse value tied_items).
Proof.
  apply (top_n_by_value_of_sorted (sorted_reverse value tied_items) 3).
  - apply sorted_reverse_sorted.
  - lia.
Defined.

(** ** stats: order of the records, scaling, constant and bounded values *)























(** ** main: exit status, size of the output, effect of --normalize *)

Lemma top_n_by_value_count (items : list Item) (n : Z) :
  len (top_n_by_value items n) = Z.min (Z.max n 0) (len items).
Proof.
  destruct (n <=? 0)%Z eqn:E.
  - unfold top_n_by_value. rewrite E. apply Z.leb_le in E. unfold len. simpl. lia.
  - apply Z.leb_gt in E. rewrite top_n_by_value_pos by exact E.
    unfold len. rewrite length_take, sorted_reverse_length. lia.
Qed.

Section MainFurther.
Variable sqrt_fn : Qc -> Qc.
Variable str_float : Qc -> string.
Variable json_dumps : Output -> string.

(** X12. For every command line [main] raises nothing and returns the
    exit status 0.  With [--json] it prints once; otherwise it prints the
    header, one line for each of the [min (max top 0) 5] displayed records,
    the empty line and the statistics line. *)
Theorem main_exit_status (args : Namespace) :
  exists lines,
    main sqrt_fn str_float json_dumps args = Ok (lines, 0%Z) /\
    len lines = (if json args then 1 else 3 + Z.min (Z.max (top args) 0) 5)%Z.
Proof.
  destruct (working_set args) as [items|e] eqn:Hw; [|rewrite working_set_ok in Hw; discriminate].
  pose proof (working_set_length args items Hw) as Hlen.
  assert (Hne : items <> []) by (destruct items; [discriminate | congruence]).
  pose proof (stats_nonempty sqrt_fn items Hne (working_set_in_range args items Hw)) as Hs.
  eexists. split; [apply (main_ok sqrt_fn str_float json_dumps args items _ Hw Hs)|].
  destruct (json args); [reflexivity|].
  pose proof (top_n_by_value_count items (top args)) as Hc.
  unfold len in *. rewrite !length_app, length_map. simpl length. lia.
Qed.

(** X13. Under [--normalize], in text mode, [main] displays the records it
    displays without the flag, in the same order, each value divided by 25;
    the statistics line is that of statistics with count 5 and sum 1. *)
Theorem main_normalize_same_records (args : Namespace) :
  normalize args = true ->
  json args = false ->
  exists st,
    main sqrt_fn str_float json_dumps args
    = Ok ("Top items:"
            :: map (fun it => (" - (" ++ str_int (id it) ++ ") " ++ name it ++ ": "
                                 ++ str_float (value it / lit 25 1))%string)
                   (top_n_by_value build_example_items (top args))
            ++ [ ""%string; stats_line str_float st ],
          0%Z) /\
    count st = 5%Z /\ sum st = 1.
Proof.
  intros Hn Hj.
  pose proof (working_set_ok args) as Hw. rewrite Hn in Hw.
  pose proof (stats_nonempty sqrt_fn (map (scaled (lit 25 1)) build_example_items)
                ltac:(discriminate) ltac:(in_range)) as Hs.
  eexists. split; [|split].
  - rewrite (main_ok sqrt_fn str_float json_dumps args _ _ Hw Hs), Hj.
    rewrite top_n_by_value_scaled by (vm_compute; reflexivity).
    rewrite map_map. reflexivity.
  - reflexivity.
  - simpl. apply Qc_is_canon. vm_compute. reflexivity.
Qed.
End MainFurther.

Lemma main_normalize_same_records_witness :
  exists lines,
    main sqrt_exact str_decimal (fun _ => ""%string)
         {| top := 2; normalize := true; json := false |} = Ok (lines, 0%Z) /\
    take 4 lines = [ "Top items:"; " - (1) alpha: 0.4"; " - (5) epsilon: 0.3"; "" ]%string.
Proof.
  destruct (main_normalize_same_records sqrt_exact str_decimal (fun _ => ""%string)
              {| top := 2; normalize := true; json := false |} eq_refl eq_refl)
    as (st & Hmain & _).
  eexists. split; [exact Hmain|]. vm_compute. reflexivity.
Defined.

(** ** Objects: what the results share with the input *)

Section HeapFurther.
Import Heap.

Lemma alloc_list_keeps_items (h : heap) (elems : list ref) (x : ref) (it : Item) :
  (alloc h (ListObj elems)).1 !! x = Some (ItemObj it) -> h !! x = Some (ItemObj it).
Proof.
  unfold alloc. simpl. rewrite lookup_insert.
  destruct (decide (fresh (dom h) = x)); [discriminate | trivial].
Qed.

Lemma not_allocated (h h' : heap) (x : ref) :
  preserved h h' -> h' !! x = None -> h !! x = None.
Proof.
  intros Hp Hx. destruct (h !! x) as [o|] eqn:Ho; [|reflexivity].
  apply Hp in Ho. congruence.
Qed.

Lemma sorted_refs_subset (keys : list Qc) (elems : list ref) (x : ref) :
  x ∈ map snd (sorted_reverse fst (zip keys elems)) -> x ∈ elems.
Proof.
  intros Hx. apply list_elem_of_fmap in Hx as [[k y] [-> Hin]].
  rewrite (sorted_reverse_perm fst (zip keys elems)) in Hin.
  apply elem_of_zip_r in Hin. exact Hin.
Qed.

Lemma sorted_by_value_eq (h : heap) (items : ref) (elems : list ref) (its : list Item) :
  get_list h items = Some elems ->
  Forall2 (fun x it => get_item h x = Some it) elems its ->
  sorted_by_value h items
  = Some (alloc h (ListObj (map snd (sorted_reverse fst (zip (map value its) elems))))).
Proof.
  intros Hl H. unfold sorted_by_value. rewrite Hl. simpl.
  rewrite (keys_of_items h elems its H). reflexivity.
Qed.

Lemma slice_eq (h : heap) (l : ref) (elems : list ref) (n : Z) :
  get_list h l = Some elems ->
  slice h l n = Some (alloc h (ListObj (slice_to elems n))).
Proof. intros Hl. unfold slice. rewrite Hl. reflexivity. Qed.

Lemma slice_to_subset {A : Type} (l : list A) (n : Z) (x : A) :
  x ∈ slice_to l n -> x ∈ l.
Proof.
  unfold slice_to. destruct (0 <=? n)%Z; apply subseteq_take.
Qed.
End HeapFurther.

(** X14. The list returned by [top_n_by_value] holds references taken from
    the input list: the records of the result are the record objects of the
    input, not copies, and the call creates no record. *)
Theorem top_n_by_value_shares_records
  (h : Heap.heap) (items : Heap.ref) (its : list Item) (n : Z) :
  Heap.items_of h items = Some its ->
  exists h' r elems rs,
    Heap.top_n_by_value h items n = Some (h', r) /\
    Heap.get_list h items = Some elems /\
    Heap.get_list h' r = Some rs /\
    (forall x, x ∈ rs -> x ∈ elems) /\
    (forall x it, h' !! x = Some (Heap.ItemObj it) -> h !! x = Some (Heap.ItemObj it)).
Proof.
  intros Hits. unfold Heap.items_of in Hits.
  destruct (Heap.get_list h items) as [elems|] eqn:Hl; [|discriminate].
  simpl in Hits. apply mapM_Some in Hits.
  unfold Heap.top_n_by_value. destruct (n <=? 0)%Z.
  - exists (Heap.alloc h (Heap.ListObj [])).1, (Heap.alloc h (Heap.ListObj [])).2, elems, [].
    split; [reflexivity|]. split; [reflexivity|].
    split; [apply get_list_lookup, alloc_lookup_new|].
    split; [intros x Hx; inversion Hx|].
    intros x it. apply alloc_list_keeps_items.
  - rewrite (sorted_by_value_eq h items elems its Hl Hits).
    set (l := map snd (sorted_reverse fst (zip (map value its) elems))).
    pose proof (alloc_lookup_new h (Heap.ListObj l)) as Hnew.
    pose proof (alloc_list_keeps_items h l) as Hkeep.
    destruct (Heap.alloc h (Heap.ListObj l)) as [h1 r1]. simpl in Hnew, Hkeep.
    apply get_list_lookup in Hnew. simpl.
    rewrite (slice_eq h1 r1 l n Hnew).
    exists (Heap.alloc h1 (Heap.ListObj (slice_to l n))).1,
           (Heap.alloc h1 (Heap.ListObj (slice_to l n))).2, elems, (slice_to l n).
    split; [reflexivity|]. split; [reflexivity|].
    split; [apply get_list_lookup, alloc_lookup_new|].
    split.
    + intros x Hx. apply slice_to_subset in Hx.
      exact (sorted_refs_subset _ _ _ Hx).
    + intros x it Hx. apply alloc_list_keeps_items in Hx.
      apply Hkeep in Hx. exact Hx.
Qed.

Lemma top_n_by_value_shares_records_witness :
  exists h' r elems rs,
    Heap.top_n_by_value Heap.example_heap 6%positive 3 = Some (h', r) /\
    Heap.get_list Heap.example_heap 6%positive = Some elems /\
    Heap.get_list h' r = Some rs /\
    (forall x, x ∈ rs -> x ∈ elems) /\
    (forall x it, h' !! x = Some (Heap.ItemObj it) ->
                  Heap.example_heap !! x = Some (Heap.ItemObj it)).
Proof.
  apply (top_n_by_value_shares_records Heap.example_heap 6%positive build_example_items 3).
  vm_compute. reflexivity.
Defined.

Section HeapNormalizeFacts.
Import Heap HeapNormalize.

(** The records made by the comprehension are new objects holding the given
    records, and the existing objects are unchanged. *)
Lemma alloc_items_spec (its : list Item) (h : heap) :
  preserved h (alloc_items h its).1 /\
  Forall2 (fun x it => get_item (alloc_items h its).1 x = Some it)
          (alloc_items h its).2 its /\
  Forall (fun x => h !! x = None) (alloc_items h its).2.
Proof.
  revert h. induction its as [|it rest IH]; intros h.
  - simpl. split; [intros r o Hr; exact Hr|]. split; constructor.
  - cbn [alloc_items].
    pose proof (preserved_alloc h (ItemObj it)) as Hp.
    pose proof (alloc_fresh h (ItemObj it)) as Hf.
    pose proof (alloc_lookup_new h (ItemObj it)) as Hn.
    destruct (alloc h (ItemObj it)) as [h1 r]. simpl in Hp, Hf, Hn.
    destruct (IH h1) as (Hp1 & Hall & Hfresh).
    destruct (alloc_items h1 rest) as [h2 rs]. simpl in *.
    split; [exact (preserved_trans h h1 h2 Hp Hp1)|]. split.
    + constructor; [|exact Hall].
      apply get_item_lookup. apply Hp1. exact Hn.
    + constructor; [exact Hf|].
      eapply Forall_impl; [exact Hfresh|]. intros x Hx.
      exact (not_allocated h h1 x Hp Hx).
Qed.

Lemma scaling_comprehension (t : Qc) (its : list Item) :
  t <> 0 ->
  comprehension (fun i => let* v := py_truediv (value i) t in
                          Ok (mkItem (id i) (name i) v)) its
  = Ok (map (scaled t) its).
Proof.
  intros Ht. apply comprehension_ok. intros i.
  rewrite py_truediv_ok by exact Ht. reflexivity.
Qed.
End HeapNormalizeFacts.

(** X15. Called on a list of records, [normalize_values] leaves every
    existing object unchanged and returns a list holding the records that
    the function computes.  When the sum of the values is 0 the list
    returned is the input list itself and nothing is created; otherwise it
    is a new list whose records are all new objects. *)
Theorem normalize_values_aliasing
  (h : Heap.heap) (items : Heap.ref) (its : list Item) :
  Heap.items_of h items = Some its ->
  exists h' r out,
    HeapNormalize.normalize_values h items = Some (Ok (h', r)) /\
    normalize_values its = Ok out /\
    Heap.preserved h h' /\
    Heap.items_of h' r = Some out /\
    (total_value its = 0 -> h' = h /\ r = items) /\
    (total_value its <> 0 ->
     h !! r = None /\
     exists rs, Heap.get_list h' r = Some rs /\ forall x, x ∈ rs -> h !! x = None).
Proof.
  intros Hits. pose proof Hits as Hits0. unfold Heap.items_of in Hits.
  destruct (Heap.get_list h items) as [elems|] eqn:Hl; [|discriminate].
  simpl in Hits. unfold HeapNormalize.normalize_values. rewrite Hl. simpl.
  rewrite Hits. simpl. rewrite py_sum_total. fold (total_value its).
  destruct (decide (total_value its = 0)) as [H0|Hn0].
  - exists h, items, its. split; [reflexivity|].
    split; [apply normalize_values_zero, H0|].
    split; [intros r o Hr; exact Hr|]. split; [exact Hits0|].
    split; [intros _; split; reflexivity | intros Hn0; contradiction].
  - rewrite (scaling_comprehension _ its Hn0). cbn [bind].
    set (out := map (scaled (total_value its)) its).
    destruct (alloc_items_spec out h) as (Hp & Hall & Hfresh).
    destruct (HeapNormalize.alloc_items h out) as [h1 refs]. simpl in Hp, Hall, Hfresh.
    exists (Heap.alloc h1 (Heap.ListObj refs)).1, (Heap.alloc h1 (Heap.ListObj refs)).2, out.
    split; [reflexivity|].
    split; [apply normalize_values_nonzero, Hn0|].
    split; [eapply preserved_trans; [exact Hp | apply preserved_alloc]|].
    split; [apply items_of_alloc, Hall|].
    split; [intros H0; contradiction|]. intros _. split.
    + apply (not_allocated h h1 _ Hp), alloc_fresh.
    + exists refs. split; [apply get_list_lookup, alloc_lookup_new|].
      intros x Hx. rewrite Forall_forall in Hfresh. apply Hfresh, Hx.
Qed.

Lemma normalize_values_aliasing_witness :
  exists h' r out,
    HeapNormalize.normalize_values HeapNormalize.small_heap 4%positive
    = Some (Ok (h', r)) /\
    normalize_values [mkItem 1 "a" (lit 3 1); mkItem 2 "b" (lit 1 1)] = Ok out /\
    Heap.preserved HeapNormalize.small_heap h' /\
    Heap.items_of h' r = Some out /\
    (total_value [mkItem 1 "a" (lit 3 1); mkItem 2 "b" (lit 1 1)] = 0 ->
     h' = HeapNormalize.small_heap /\ r = 4%positive) /\
    (total_value [mkItem 1 "a" (lit 3 1); mkItem 2 "b" (lit 1 1)] <> 0 ->
     HeapNormalize.small_heap !! r = None /\
     exists rs, Heap.get_list h' r = Some rs /\
                forall x, x ∈ rs -> HeapNormalize.small_heap !! x = None).
Proof.
  apply (normalize_values_aliasing HeapNormalize.small_heap 4%positive
           [mkItem 1 "a" (lit 3 1); mkItem 2 "b" (lit 1 1)]).
  vm_compute. reflexivity.
Defined.

(** The two cases on the example store: the list at 5 has total 0 and is
    returned itself; the list at 4 has total 4 and a new list of new records
    is returned. *)
Example normalize_values_on_small_heap :
  HeapNormalize.normalize_values HeapNormalize.small_heap 5%positive
  = Some (Ok (HeapNormalize.small_heap, 5%positive)) /\
  exists h',
    HeapNormalize.normalize_values HeapNormalize.small_heap 4%positive
    = Some (Ok (h', 8%positive)) /\
    Heap.get_list h' 8%positive = Some [6; 7]%positive /\
    Heap.get_list h' 4%positive = Some [1; 2]%positive.
Proof.
  split; [vm_compute; reflexivity|].
  eexists. repeat split; vm_compute; reflexivity.
Qed.

(** ** Ranking without ties, statistics of shifted values *)

Section Distinct.
Context {A : Type} (key : A -> Qc).

Lemma with_key_short (v : Qc) (l : list A) :
  NoDup (map key l) -> (length (with_key key v l) <= 1)%nat.
Proof.
  unfold with_key. induction l as [|x xs IH]; simpl; [lia|].
  intros Hnd. apply NoDup_cons in Hnd as [Hx Hnd].
  rewrite filter_cons. destruct (decide (key x = v)) as [Hv|Hv]; [|apply IH, Hnd].
  destruct (filter (fun a => key a = v) xs) as [|y ys] eqn:Hf; [simpl; lia|].
  exfalso. apply Hx.
  assert (Hy : y ∈ filter (fun a => key a = v) xs) by (rewrite Hf; left).
  apply list_elem_of_filter in Hy as [Hky Hy].
  rewrite Hv, <- Hky. apply list_elem_of_fmap. exists y. split; [reflexivity | exact Hy].
Qed.

Lemma short_perm_eq (l l' : list A) :
  Permutation l l' -> (length l <= 1)%nat -> l = l'.
Proof.
  intros Hp Hlen. destruct l as [|a [|b l]]; simpl in Hlen.
  - symmetry. apply Permutation_nil, Hp.
  - apply Permutation_singleton_l, Hp.
  - lia.
Qed.

(** Without two equal keys, the sort does not depend on the order of the
    input. *)
Lemma sorted_reverse_perm_distinct (l l' : list A) :
  NoDup (map key l) -> Permutation l l' ->
  sorted_reverse key l = sorted_reverse key l'.
Proof.
  intros Hnd Hp.
  apply (sorted_stable_unique key); try apply sorted_reverse_sorted.
  intros v. rewrite (sorted_reverse_stable key l v), (sorted_reverse_stable key l' v).
  apply short_perm_eq; [|apply with_key_short, Hnd].
  unfold with_key. apply filter_Permutation, Hp.
Qed.
End Distinct.

(** X16. When no two records have the same value, the result of
    [top_n_by_value] does not depend on the order of the input. *)
Theorem top_n_by_value_permutation (items items' : list Item) (n : Z) :
  NoDup (map value items) ->
  Permutation items items' ->
  top_n_by_value items n = top_n_by_value items' n.
Proof.
  intros Hnd Hp. unfold top_n_by_value. destruct (n <=? 0)%Z; [reflexivity|].
  rewrite (sorted_reverse_perm_distinct value items items' Hnd Hp). reflexivity.
Qed.

Lemma top_n_by_value_permutation_witness :
  top_n_by_value negative_items 1 = top_n_by_value (rev negative_items) 1.
Proof.
  apply (top_n_by_value_permutation negative_items (rev negative_items) 1).
  - repeat constructor; vm_compute; intros H; inversion H as [|? ? ? H']; subst;
      try discriminate; inversion H'.
  - apply Permutation_rev.
Defined.






